(** * The material-scattering core of the ray tracer

    A shallow embedding of [src/material.h] (with the constant [pi] of
    [rtweekend.h]) and the properties of its five material variants.

    Numbers.  A C++ [double] is modelled by a real number: arithmetic is
    exact, [fmin] is [Rmin], [sqrt] is the real square root and
    [pow (x, 5)] is [x ^ 5].  Rounding, infinities and NaN are outside the
    model; every statement below is a statement in exact arithmetic.

    Output parameters.  [scatter] writes through three reference parameters
    ([attenuation], [scattered], [pdf]) and draws from a process-wide
    random generator.  The caller's three objects and the generator form
    the [state] that a function body transforms; a body that does not
    assign one of them leaves it as the caller had it.

    Return values.  A value-returning C++ function whose control reaches
    the closing brace without a [return] statement yields no value.  The
    result of [scattering_pdf] is therefore an [option]: [Some] carries the
    operand of the [return] statement, [None] stands for a body that has
    none. *)

From Stdlib Require Import Reals Lra Bool.

Open Scope R_scope.

(** ** Scalars *)

Abbreviation double := R (only parsing).

(** [rtweekend.h]: [const double pi = 3.1415926535897932385;] *)
Definition pi : double := 3.1415926535897932385.

(** The C++ comparison [a > b], as a [bool]. *)
Definition gtb (a b : double) : bool :=
  if Rgt_dec a b then true else false.

(** The C++ comparison [a < b], as a [bool]. *)
Definition ltb (a b : double) : bool :=
  if Rlt_dec a b then true else false.

(** [fmin] of [<cmath>]. *)
Definition fmin (a b : double) : double := Rmin a b.

(** [rtweekend.h]:
    [inline double degrees_to_radius(double degrees)]. *)
Definition degrees_to_radius (degrees : double) : double :=
  degrees * pi / 180.

(** ** Vectors, rays and hit records

    [vec3.h], [ray.h] and [hittable.h] are not among the sources at hand;
    the types below carry exactly what [material.h] reads from them. *)

(** Modelled from the spec: [class vec3] of [vec3.h], three doubles read
    through [x()], [y()] and [z()]. *)
Record vec3 : Type := vec { x : double; y : double; z : double }.

(** Modelled from the spec: [point3] and [color], the aliases of [vec3]
    declared in [vec3.h] and [color.h]. *)
Abbreviation point3 := vec3 (only parsing).
Abbreviation color := vec3 (only parsing).

(** Modelled from the spec: the vector primitives of [vec3.h], the
    component-wise operations on three doubles. *)
Definition vadd (a b : vec3) : vec3 :=
  vec (x a + x b) (y a + y b) (z a + z b).

(** Modelled from the spec: [vec3.h], binary minus. *)
Definition vsub (a b : vec3) : vec3 :=
  vec (x a - x b) (y a - y b) (z a - z b).

(** Modelled from the spec: [vec3.h], unary minus. *)
Definition vneg (a : vec3) : vec3 :=
  vec (- x a) (- y a) (- z a).

(** Modelled from the spec: [vec3.h], [double * vec3]. *)
Definition vscale (k : double) (a : vec3) : vec3 :=
  vec (k * x a) (k * y a) (k * z a).

(** Modelled from the spec: [vec3.h], [vec3 / double]. *)
Definition vdiv (a : vec3) (k : double) : vec3 :=
  vscale (1 / k) a.

(** Modelled from the spec: [vec3.h], the inner product. *)
Definition dot (a b : vec3) : double :=
  x a * x b + y a * y b + z a * z b.

(** Modelled from the spec: [vec3.h], the cross product. *)
Definition cross (a b : vec3) : vec3 :=
  vec (y a * z b - z a * y b)
      (z a * x b - x a * z b)
      (x a * y b - y a * x b).

(** Modelled from the spec: [vec3.h], squared Euclidean length. *)
Definition length_squared (a : vec3) : double := dot a a.

(** Modelled from the spec: [vec3.h], Euclidean length. *)
Definition length (a : vec3) : double := sqrt (length_squared a).

(** Modelled from the spec: [vec3.h], normalisation. *)
Definition unit_vector (a : vec3) : vec3 := vdiv a (length a).

(** Modelled from the spec: [vec3.h], mirror reflection,
    [reflect(v, n) = v - 2*dot(v,n)*n] (section 4.3). *)
Definition reflect (v n : vec3) : vec3 :=
  vsub v (vscale (2 * dot v n) n).

Declare Scope vec_scope.
Delimit Scope vec_scope with vec.
Bind Scope vec_scope with vec3.
Infix "+" := vadd : vec_scope.
Infix "-" := vsub : vec_scope.
Infix "*" := vscale : vec_scope.
Notation "- a" := (vneg a) : vec_scope.

(** Modelled from the spec: [ray.h], origin, direction and time. *)
Record ray : Type := mk_ray {
  origin : point3;
  direction : vec3;
  time : double
}.

(** Modelled from the spec: [hittable.h], the intersection record
    (section 3): point, normal, parametric distance, surface coordinates and
    the front-face flag. *)
Record hit_record : Type := mk_hit_record {
  p : point3;
  normal : vec3;
  t : double;
  u : double;
  v : double;
  front_face : bool
}.

(** ** Textures

    [texture.h] is a collaborator: a texture is what its virtual [value]
    answers, and [solid_color] is the constant one. *)

(** Modelled from the spec: [class texture] of [texture.h] (section 4.5),
    a capability answering [value(u, v, point) -> Color]. *)
Definition texture : Type := double -> double -> point3 -> color.

(** Modelled from the spec: [texture::value] (section 4.5), a pure query. *)
Definition value (tex : texture) (u v : double) (q : point3) : color :=
  tex u v q.

(** Modelled from the spec: [solid_color] of [texture.h] (section 4.5), the
    texture wrapping a constant colour. *)
Definition solid_color (c : color) : texture := fun _ _ _ => c.

(** ** Collaborators

    The random samplers, the refraction formula and the choice of the helper
    axis of the orthonormal basis live in headers that are not among the
    sources.  [material.h] only calls them, so they are parameters of the
    development: [rng] is the state of the process-wide generator and each
    sampler returns its draw and the advanced generator. *)

Class collaborators : Type := {
  rng : Type;
  random_double : rng -> double * rng;
  random_unit_vector : rng -> vec3 * rng;
  random_cosine_direction : rng -> vec3 * rng;
  refract : vec3 -> vec3 -> double -> vec3;
  helper_axis : vec3 -> vec3
}.

(** ** Function bodies *)

Section Bodies.
Context `{collaborators}.

(** What a call of [scatter] may write: the caller's three objects behind
    the reference parameters, and the generator. *)
Record state : Type := mk_state {
  attenuation : color;
  scattered : ray;
  pdf : double;
  gen : rng
}.

(** A function body: from the state at entry to a value and the state at
    exit. *)
Definition body (A : Type) : Type := state -> A * state.

(** Yield a value, touching nothing. *)
Definition ret {A : Type} (a : A) : body A := fun s => (a, s).

(** Sequencing: run [c], then [k] on its value from the state [c] left. *)
Definition bind {A B : Type} (c : body A) (k : A -> body B) : body B :=
  fun s => let (a, s') := c s in k a s'.

(** One call of a sampler. *)
Definition draw {A : Type} (sampler : rng -> A * rng) : body A :=
  fun s =>
    let (a, g) := sampler (gen s) in
    (a, mk_state (attenuation s) (scattered s) (pdf s) g).

(** Assignment through the reference parameter [attenuation]. *)
Definition set_attenuation (c : color) : body unit :=
  fun s => (tt, mk_state c (scattered s) (pdf s) (gen s)).

(** Assignment through the reference parameter [scattered]. *)
Definition set_scattered (r : ray) : body unit :=
  fun s => (tt, mk_state (attenuation s) r (pdf s) (gen s)).

(** Assignment through the reference parameter [pdf]. *)
Definition set_pdf (d : double) : body unit :=
  fun s => (tt, mk_state (attenuation s) (scattered s) d (gen s)).

(** Reading [scattered] back, as [scattered.direction()] does. *)
Definition get_scattered : body ray := fun s => (scattered s, s).

(** The value a body returns when run from [s]. *)
Definition returned {A : Type} (c : body A) (s : state) : A := fst (c s).

(** The state a body leaves when run from [s]. *)
Definition final {A : Type} (c : body A) (s : state) : state := snd (c s).

(** The C++ [a || b]: [b] is evaluated only when [a] is false. *)
Definition or_else (a : bool) (b : body bool) : body bool :=
  if a then ret true else b.
End Bodies.

Declare Scope body_scope.
Delimit Scope body_scope with body.
Notation "a <- c ;; k" := (bind c (fun a => k))
  (at level 61, c at next level, right associativity) : body_scope.
Notation "c ;; k" := (bind c (fun _ => k))
  (at level 61, right associativity) : body_scope.

(** The statements of a value-returning body.  An expression statement
    [e;] evaluates [e], drops it and goes on with the rest of the body. *)
Definition discard {A B : Type} (e : A) (rest : option B) : option B := rest.

(** [return e;] hands [e] back to the caller. *)
Definition return_ {B : Type} (e : B) : option B := Some e.

(** The closing brace, reached without a [return]: nothing is handed
    back. *)
Definition end_of_body {B : Type} : option B := None.

(** ** The orthonormal basis *)

Module onb.
Section onb.
Context `{collaborators}.

(** Modelled from the spec: the frame of [onb.h] (section 4.1), three
    axes read through [u()], [v()] and [w()]. *)
Record onb : Type := mk { u : vec3; v : vec3; w : vec3 }.

(** Modelled from the spec: [onb::build_from_w] of [onb.h] (section 4.1):
    [w] is kept as given, [v = normalize(cross(helper, w))] and
    [u = cross(v, w)], for a helper axis chosen from [w]. *)
Definition build_from_w (n : vec3) : onb :=
  let a := helper_axis n in
  let v' := unit_vector (cross a n) in
  let u' := cross v' n in
  mk u' v' n.

(** Modelled from the spec: [onb::local] of [onb.h] (section 4.1), the
    local coordinates [(x, y, z)] taken to [x*u + y*v + z*w]. *)
Definition local (b : onb) (a : vec3) : vec3 :=
  (x a * u b + y a * v b + z a * w b)%vec.
End onb.
End onb.

(** ** The material interface *)

Class Material `{collaborators} (M : Type) : Type := {
  emitted : M -> ray -> hit_record -> double -> double -> point3 -> color;
  scatter : M -> ray -> hit_record -> body bool;
  scattering_pdf : M -> ray -> hit_record -> ray -> option double
}.

(** The two members that [class material] implements itself. *)
Module material.
Definition emitted (r_in : ray) (rec : hit_record) (u v : double)
    (q : point3) : color :=
  vec 0 0 0.

Definition scattering_pdf (r_in : ray) (rec : hit_record)
    (scattered : ray) : option double :=
  return_ 0.
End material.

(** ** lambertian *)

Module lambertian.
Section lambertian.
Context `{collaborators}.
Local Open Scope body_scope.

Record lambertian : Type := mk { albedo : texture }.

(** [lambertian(const color& a)] *)
Definition of_color (a : color) : lambertian := mk (solid_color a).

(** [lambertian(shared_ptr<texture> a)] *)
Definition of_texture (a : texture) : lambertian := mk a.

Definition scatter (m : lambertian) (r_in : ray) (rec : hit_record)
    : body bool :=
  let uvw := onb.build_from_w (normal rec) in
  d <- draw random_cosine_direction ;;
  let scatter_direction := onb.local uvw d in
  set_scattered (mk_ray (p rec) scatter_direction (time r_in)) ;;
  set_attenuation (value (albedo m) (u rec) (v rec) (p rec)) ;;
  sc <- get_scattered ;;
  set_pdf (dot (onb.w uvw) (direction sc) / pi) ;;
  ret true.

(** The body is the expression statement [1 / (2 * pi);] and nothing
    else. *)
Definition scattering_pdf (m : lambertian) (r_in : ray) (rec : hit_record)
    (scattered : ray) : option double :=
  discard (1 / (2 * pi)) end_of_body.

#[export] Instance is_material : Material lambertian := {
  emitted := fun _ => material.emitted;
  scatter := scatter;
  scattering_pdf := scattering_pdf
}.
End lambertian.
End lambertian.

(** ** metal *)

Module metal.
Section metal.
Context `{collaborators}.
Local Open Scope body_scope.

Record metal : Type := mk { albedo : color; fuzz : double }.

(** [metal(const color& a, double f) : albedo(a), fuzz(f < 1 ? f : 1)] *)
Definition make (a : color) (f : double) : metal :=
  mk a (if ltb f 1 then f else 1).

Definition scatter (m : metal) (r_in : ray) (rec : hit_record)
    : body bool :=
  let reflected := reflect (unit_vector (direction r_in)) (normal rec) in
  rv <- draw random_unit_vector ;;
  set_scattered (mk_ray (p rec) (reflected + fuzz m * rv) (time r_in)) ;;
  set_attenuation (albedo m) ;;
  sc <- get_scattered ;;
  ret (gtb (dot (direction sc) (normal rec)) 0).

#[export] Instance is_material : Material metal := {
  emitted := fun _ => material.emitted;
  scatter := scatter;
  scattering_pdf := fun _ => material.scattering_pdf
}.
End metal.
End metal.

(** ** dielectric *)

Module dielectric.
Section dielectric.
Context `{collaborators}.
Local Open Scope body_scope.

Record dielectric : Type := mk { ir : double }.

(** Schlick's approximation; [pow((1 - cosine), 5)] is the fifth power. *)
Definition reflectance (cosine ref_idx : double) : double :=
  let r0 := (1 - ref_idx) / (1 + ref_idx) in
  let r0 := r0 * r0 in
  r0 + (1 - r0) * (1 - cosine) ^ 5.

Definition scatter (m : dielectric) (r_in : ray) (rec : hit_record)
    : body bool :=
  set_attenuation (vec 1 1 1) ;;
  let refraction_ratio := if front_face rec then 1 / ir m else ir m in
  let unit_direction := unit_vector (direction r_in) in
  let cos_theta := fmin (dot (- unit_direction) (normal rec)) 1 in
  let sin_theta := sqrt (1 - cos_theta * cos_theta) in
  let cannot_refract := gtb (refraction_ratio * sin_theta) 1 in
  reflects <- or_else cannot_refract
                (r <- draw random_double ;;
                 ret (gtb (reflectance cos_theta refraction_ratio) r)) ;;
  let direction :=
    if reflects : bool
    then reflect unit_direction (normal rec)
    else refract unit_direction (normal rec) refraction_ratio in
  set_scattered (mk_ray (p rec) direction (time r_in)) ;;
  ret true.

#[export] Instance is_material : Material dielectric := {
  emitted := fun _ => material.emitted;
  scatter := scatter;
  scattering_pdf := fun _ => material.scattering_pdf
}.
End dielectric.
End dielectric.

(** ** diffuse_light *)

Module diffuse_light.
Section diffuse_light.
Context `{collaborators}.

Record diffuse_light : Type := mk { emit : texture }.

(** [diffuse_light(shared_ptr<texture> a)] *)
Definition of_texture (a : texture) : diffuse_light := mk a.

(** [diffuse_light(color c)] *)
Definition of_color (c : color) : diffuse_light := mk (solid_color c).

Definition scatter (m : diffuse_light) (r_in : ray) (rec : hit_record)
    : body bool :=
  ret false.

Definition emitted (m : diffuse_light) (r_in : ray) (rec : hit_record)
    (u v : double) (q : point3) : color :=
  if negb (front_face rec)
  then vec 0 0 0
  else value (emit m) u v q.

#[export] Instance is_material : Material diffuse_light := {
  emitted := emitted;
  scatter := scatter;
  scattering_pdf := fun _ => material.scattering_pdf
}.
End diffuse_light.
End diffuse_light.

(** ** isotropic *)

Module isotropic.
Section isotropic.
Context `{collaborators}.
Local Open Scope body_scope.

Record isotropic : Type := mk { albedo : texture }.

(** [isotropic(color c)] *)
Definition of_color (c : color) : isotropic := mk (solid_color c).

(** [isotropic(shared_ptr<texture> a)] *)
Definition of_texture (a : texture) : isotropic := mk a.

Definition scatter (m : isotropic) (r_in : ray) (rec : hit_record)
    : body bool :=
  rv <- draw random_unit_vector ;;
  set_scattered (mk_ray (p rec) rv (time r_in)) ;;
  set_attenuation (value (albedo m) (u rec) (v rec) (p rec)) ;;
  set_pdf (1 / (4 * pi)) ;;
  ret true.

Definition scattering_pdf (m : isotropic) (r_in : ray) (rec : hit_record)
    (scattered : ray) : option double :=
  return_ (1 / (4 * pi)).

#[export] Instance is_material : Material isotropic := {
  emitted := fun _ => material.emitted;
  scatter := scatter;
  scattering_pdf := scattering_pdf
}.
End isotropic.
End isotropic.

(** ** A concrete set of collaborators

    One fixed choice of the parameters, on which the functions above can be
    evaluated: a generator that counts its calls, samplers that answer the
    same draw every time, the usual Snell refraction and the usual choice of
    helper axis. *)

Module sample.
Definition snell (uv n : vec3) (etai_over_etat : double) : vec3 :=
  let cos_theta := fmin (dot (- uv) n) 1 in
  let r_out_perp := (etai_over_etat * (uv + cos_theta * n))%vec in
  let r_out_parallel :=
    vscale (- sqrt (Rabs (1 - length_squared r_out_perp))) n in
  (r_out_perp + r_out_parallel)%vec.

Definition axis_off (w : vec3) : vec3 :=
  if gtb (Rabs (x w)) 0.9 then vec 0 1 0 else vec 1 0 0.

Definition fixed : collaborators := {|
  rng := nat;
  random_double := fun g => (1 / 2, S g);
  random_unit_vector := fun g => (vec 1 0 0, S g);
  random_cosine_direction := fun g => (vec 0 0 1, S g);
  refract := snell;
  helper_axis := axis_off
|}.

(** A ray travelling straight down onto a surface facing straight up. *)
Definition down : ray := mk_ray (vec 0 0 1) (vec 0 0 (-1)) 0.

Definition floor_hit : hit_record :=
  mk_hit_record (vec 0 0 0) (vec 0 0 1) 1 0 0 true.

(** A record at the same point with another normal. *)
Definition flat_hit : hit_record :=
  mk_hit_record (vec 0 0 0) (vec 0 0 0) 1 0 0 true.

Definition grey : color := vec 0.5 0.5 0.5.

(** What the caller holds before the call. *)
Definition start : @state fixed :=
  @mk_state fixed (vec 0 0 0) (mk_ray (vec 0 0 0) (vec 0 0 0) 0) 7 O.

(** A ray travelling along the surface. *)
Definition east : ray := mk_ray (vec 0 0 0) (vec 1 0 0) 0.

(** A ray travelling straight up, away from the floor. *)
Definition rising : ray := mk_ray (vec 0 0 (-1)) (vec 0 0 1) 0.

(** The floor met from inside the medium. *)
Definition inside_hit : hit_record :=
  mk_hit_record (vec 0 0 0) (vec 0 0 1) 1 0 0 false.
End sample.

(** Running a body: unfold the sequencing down to the final state. *)
Ltac run_body :=
  unfold returned, final, bind, or_else, draw, set_attenuation,
    set_scattered, set_pdf, get_scattered, ret; simpl.

(** * Properties *)

(** ** Scalars and vectors *)

Lemma pi_pos : 0 < pi.
Proof. unfold pi. lra. Qed.

Lemma gtb_true (a b : double) : gtb a b = true <-> a > b.
Proof.
  unfold gtb. destruct (Rgt_dec a b) as [Hgt | Hle]; split; intro Hyp;
    try reflexivity; try assumption; try discriminate.
  contradiction.
Qed.

Lemma gtb_false (a b : double) : gtb a b = false <-> a <= b.
Proof.
  unfold gtb. destruct (Rgt_dec a b) as [Hgt | Hle]; split; intro Hyp;
    try reflexivity; try discriminate; lra.
Qed.

Lemma ltb_true (a b : double) : ltb a b = true <-> a < b.
Proof.
  unfold ltb. destruct (Rlt_dec a b) as [Hlt | Hge]; split; intro Hyp;
    try reflexivity; try assumption; try discriminate.
  contradiction.
Qed.

Lemma vec_eq (a b : vec3) :
  x a = x b -> y a = y b -> z a = z b -> a = b.
Proof.
  destruct a, b; simpl; intros -> -> ->; reflexivity.
Qed.

(** Adding the zero multiple of any vector changes nothing. *)
Lemma vadd_vscale_0 (a b : vec3) : (a + 0 * b)%vec = a.
Proof. apply vec_eq; simpl; ring. Qed.

(** A vector other than the origin has positive squared length. *)
Lemma length_squared_pos (a : vec3) :
  a <> vec 0 0 0 -> 0 < length_squared a.
Proof.
  destruct a as [a1 a2 a3]. intro Hne.
  unfold length_squared, dot; simpl.
  destruct (Req_dec a1 0) as [E1 | N1];
    [destruct (Req_dec a2 0) as [E2 | N2];
       [destruct (Req_dec a3 0) as [E3 | N3] | ] | ].
  - subst. contradiction Hne. reflexivity.
  - nra.
  - nra.
  - nra.
Qed.

(** The sampled direction of the Lambertian basis, measured along the
    normal: the two tangent axes are orthogonal to [n] whatever the helper
    axis, so only the local [z] survives. *)
Lemma dot_local_build_from_w `{collaborators} (n d : vec3) :
  dot n (onb.local (onb.build_from_w n) d) = z d * length_squared n.
Proof.
  unfold onb.local, onb.build_from_w, unit_vector, vdiv, length_squared.
  generalize (1 / length (cross (helper_axis n) n)) as k.
  generalize (helper_axis n) as a.
  intros a k. destruct n, d, a; unfold dot; simpl. ring.
Qed.

(** ** lambertian *)

Section Properties.
Context `{collaborators}.

(** C1.  [lambertian::scattering_pdf] computes [1 / (2 * pi)] in an
    expression statement and has no [return]: whatever the incoming ray,
    the hit record and the scattered ray, control reaches the end of the
    body and no value is handed back, in particular not [1 / (2 * pi)]. *)
Theorem lambertian_scattering_pdf_returns_nothing
    (m : lambertian.lambertian) (r_in : ray) (rec : hit_record)
    (sc : ray) :
  lambertian.scattering_pdf m r_in rec sc = None /\
  lambertian.scattering_pdf m r_in rec sc <> Some (1 / (2 * pi)).
Proof.
  unfold lambertian.scattering_pdf, discard, end_of_body.
  split; [reflexivity | discriminate].
Qed.

(** What [lambertian::scatter] leaves behind and returns. *)
Lemma lambertian_scatter_run (m : lambertian.lambertian) (r_in : ray)
    (rec : hit_record) (s : state) :
  let uvw := onb.build_from_w (normal rec) in
  let scatter_direction :=
    onb.local uvw (fst (random_cosine_direction (gen s))) in
  lambertian.scatter m r_in rec s =
  (true,
   mk_state (value (lambertian.albedo m) (u rec) (v rec) (p rec))
     (mk_ray (p rec) scatter_direction (time r_in))
     (dot (onb.w uvw) scatter_direction / pi)
     (snd (random_cosine_direction (gen s)))).
Proof.
  unfold lambertian.scatter. run_body.
  destruct (random_cosine_direction (gen s)) as [d g]; reflexivity.
Qed.

(** The density [lambertian::scatter] stores, in closed form. *)
Lemma lambertian_scatter_pdf (m : lambertian.lambertian) (r_in : ray)
    (rec : hit_record) (s : state) :
  pdf (final (lambertian.scatter m r_in rec) s)
  = z (fst (random_cosine_direction (gen s)))
    * length_squared (normal rec) / pi.
Proof.
  unfold final. rewrite lambertian_scatter_run. simpl pdf.
  rewrite dot_local_build_from_w. reflexivity.
Qed.

(** C2.  For every incoming ray, hit record and caller state,
    [lambertian::scatter] returns [true], sets the attenuation to the
    texture value at [(rec.u, rec.v, rec.p)], gives the scattered ray the
    origin [rec.p] and the time of the incoming ray, and sets [pdf] to
    [dot (uvw.w, scattered.direction) / pi], where [uvw.w] is the hit
    normal.  On the unit normals that hit records carry, that value is
    positive for a draw with positive local [z]. *)
Theorem lambertian_scatter_spec
    (m : lambertian.lambertian) (r_in : ray) (rec : hit_record)
    (s : state) :
  let d := fst (random_cosine_direction (gen s)) in
  let s' := final (lambertian.scatter m r_in rec) s in
  returned (lambertian.scatter m r_in rec) s = true /\
  attenuation s' = value (lambertian.albedo m) (u rec) (v rec) (p rec) /\
  origin (scattered s') = p rec /\
  time (scattered s') = time r_in /\
  onb.w (onb.build_from_w (normal rec)) = normal rec /\
  pdf s' = dot (normal rec) (direction (scattered s')) / pi /\
  (length_squared (normal rec) = 1 -> 0 < z d -> 0 < pdf s').
Proof.
  intros d s'. subst d s'.
  rewrite lambertian_scatter_pdf.
  unfold returned, final. rewrite lambertian_scatter_run. simpl.
  repeat split.
  - rewrite dot_local_build_from_w. reflexivity.
  - intros Hn Hz. rewrite Hn.
    apply Rdiv_lt_0_compat; [ | exact pi_pos].
    rewrite Rmult_1_r. exact Hz.
Qed.

(** ** metal *)

Lemma metal_make_fuzz (a : color) (f : double) :
  metal.fuzz (metal.make a f) = Rmin f 1.
Proof.
  unfold metal.make, ltb, Rmin; simpl.
  destruct (Rlt_dec f 1) as [Hlt | Hge]; destruct (Rle_dec f 1) as [Hle | Hgt];
    try reflexivity; lra.
Qed.

(** What [metal::scatter] leaves behind and returns, in one equation each. *)
Lemma metal_scatter_run (m : metal.metal) (r_in : ray) (rec : hit_record)
    (s : state) :
  let dir :=
    (reflect (unit_vector (direction r_in)) (normal rec)
     + metal.fuzz m * fst (random_unit_vector (gen s)))%vec in
  metal.scatter m r_in rec s =
  (gtb (dot dir (normal rec)) 0,
   mk_state (metal.albedo m) (mk_ray (p rec) dir (time r_in)) (pdf s)
            (snd (random_unit_vector (gen s)))).
Proof.
  unfold metal.scatter. run_body.
  destruct (random_unit_vector (gen s)) as [rv g]; reflexivity.
Qed.

(** C3, as amended.  The constructor clamps [f] from above only: the stored
    fuzz is the smaller of [f] and [1], so it never exceeds [1], and it is
    non-negative exactly when [f] is. *)
Theorem metal_fuzz_clamped_above (a : color) (f : double) :
  metal.fuzz (metal.make a f) = Rmin f 1 /\
  metal.fuzz (metal.make a f) <= 1 /\
  (0 <= metal.fuzz (metal.make a f) <-> 0 <= f).
Proof.
  rewrite metal_make_fuzz. unfold Rmin.
  destruct (Rle_dec f 1) as [Hle | Hgt]; repeat split; intros; lra.
Qed.

(** C4.  For every incoming ray, hit record and caller state, the scattered
    direction is the mirror reflection of the normalised incoming direction
    plus [fuzz] times the random unit vector drawn; [metal::scatter]
    returns [true] exactly when that direction has a positive inner product
    with the normal and [false] exactly when it has not; in both cases the
    attenuation is the stored albedo and the scattered ray starts at
    [rec.p] at the time of the incoming ray. *)
Theorem metal_scatter_spec (m : metal.metal) (r_in : ray)
    (rec : hit_record) (s : state) :
  let rv := fst (random_unit_vector (gen s)) in
  let reflected := reflect (unit_vector (direction r_in)) (normal rec) in
  let s' := final (metal.scatter m r_in rec) s in
  let b := returned (metal.scatter m r_in rec) s in
  direction (scattered s') = (reflected + metal.fuzz m * rv)%vec /\
  (b = true <-> dot (direction (scattered s')) (normal rec) > 0) /\
  (b = false <-> dot (direction (scattered s')) (normal rec) <= 0) /\
  attenuation s' = metal.albedo m /\
  origin (scattered s') = p rec /\
  time (scattered s') = time r_in.
Proof.
  intros rv reflected s' b. subst rv reflected s' b.
  unfold returned, final. rewrite metal_scatter_run. simpl.
  repeat split; try apply gtb_true; try apply gtb_false.
Qed.

(** C8.  A metal built with fuzz [0] whose mirror reflection of the
    normalised incoming direction has a positive inner product with the
    normal scatters ([true]) into exactly that mirror reflection: the
    random unit vector is multiplied by zero. *)
Theorem metal_fuzz_zero_mirror (a : color) (r_in : ray)
    (rec : hit_record) (s : state) :
  let reflected := reflect (unit_vector (direction r_in)) (normal rec) in
  dot reflected (normal rec) > 0 ->
  returned (metal.scatter (metal.make a 0) r_in rec) s = true /\
  direction (scattered (final (metal.scatter (metal.make a 0) r_in rec) s))
  = reflected.
Proof.
  intros reflected Hside. subst reflected.
  unfold returned, final. rewrite metal_scatter_run. simpl.
  assert (Hfuzz : (if ltb 0 1 then 0 else 1) = 0).
  { unfold ltb. destruct (Rlt_dec 0 1) as [_ | Hno]; [reflexivity | lra]. }
  rewrite Hfuzz, vadd_vscale_0.
  split; [apply gtb_true; exact Hside | reflexivity].
Qed.

(** ** dielectric *)

(** What [dielectric::scatter] leaves behind and returns.  The generator
    advances only when the test for total internal reflection fails. *)
Lemma dielectric_scatter_run (m : dielectric.dielectric) (r_in : ray)
    (rec : hit_record) (s : state) :
  let refraction_ratio :=
    if front_face rec then 1 / dielectric.ir m else dielectric.ir m in
  let unit_direction := unit_vector (direction r_in) in
  let cos_theta := fmin (dot (- unit_direction) (normal rec)) 1 in
  let sin_theta := sqrt (1 - cos_theta * cos_theta) in
  let cannot_refract := gtb (refraction_ratio * sin_theta) 1 in
  let reflects :=
    cannot_refract ||
    gtb (dielectric.reflectance cos_theta refraction_ratio)
        (fst (random_double (gen s))) in
  dielectric.scatter m r_in rec s =
  (true,
   mk_state (vec 1 1 1)
     (mk_ray (p rec)
        (if reflects
         then reflect unit_direction (normal rec)
         else refract unit_direction (normal rec) refraction_ratio)
        (time r_in))
     (pdf s)
     (if cannot_refract then gen s else snd (random_double (gen s)))).
Proof.
  unfold dielectric.scatter. run_body.
  destruct (gtb _ 1); simpl; [reflexivity | ].
  destruct (random_double (gen s)) as [r g]; reflexivity.
Qed.

(** C5.  For every incoming ray, hit record and caller state,
    [dielectric::scatter] returns [true] and sets the attenuation to
    [(1,1,1)]; with the refraction ratio [1/ir] on a front face and [ir]
    otherwise, the outgoing direction is the mirror reflection when
    [ratio * sin_theta > 1] or when the uniform draw is below the Schlick
    reflectance, and the refraction otherwise. *)
Theorem dielectric_scatter_spec (m : dielectric.dielectric) (r_in : ray)
    (rec : hit_record) (s : state) :
  let ratio :=
    if front_face rec then 1 / dielectric.ir m else dielectric.ir m in
  let unit_direction := unit_vector (direction r_in) in
  let cos_theta := Rmin (dot (- unit_direction) (normal rec)) 1 in
  let sin_theta := sqrt (1 - cos_theta * cos_theta) in
  let r := fst (random_double (gen s)) in
  let s' := final (dielectric.scatter m r_in rec) s in
  returned (dielectric.scatter m r_in rec) s = true /\
  attenuation s' = vec 1 1 1 /\
  origin (scattered s') = p rec /\
  time (scattered s') = time r_in /\
  (ratio * sin_theta > 1 \/ r < dielectric.reflectance cos_theta ratio ->
   direction (scattered s') = reflect unit_direction (normal rec)) /\
  (~ (ratio * sin_theta > 1 \/
      r < dielectric.reflectance cos_theta ratio) ->
   direction (scattered s') = refract unit_direction (normal rec) ratio).
Proof.
  intros ratio unit_direction cos_theta sin_theta r s'.
  subst s'. unfold returned, final. rewrite dielectric_scatter_run.
  unfold fmin. fold unit_direction. fold ratio. fold cos_theta.
  fold sin_theta. fold r. simpl.
  destruct (gtb (ratio * sin_theta) 1) eqn:Htir; simpl.
  - repeat split. intros Hno. exfalso. apply Hno. left.
    apply gtb_true. exact Htir.
  - destruct (gtb (dielectric.reflectance cos_theta ratio) r) eqn:Hdraw.
    + repeat split. intros Hno. exfalso. apply Hno. right.
      apply gtb_true in Hdraw. exact Hdraw.
    + apply gtb_false in Htir. apply gtb_false in Hdraw.
      repeat split. intros [Hgt | Hlt]; exfalso; lra.
Qed.

(** C9.  At [cos_theta = 1] the Schlick reflectance is
    [((1-n)/(1+n))^2] for every [n], the term in [(1 - cosine)^5]
    vanishing; it is [0] at [n = 1]. *)
Theorem dielectric_reflectance_normal_incidence (n : double) :
  dielectric.reflectance 1 n = ((1 - n) / (1 + n)) ^ 2 /\
  dielectric.reflectance 1 1 = 0.
Proof.
  unfold dielectric.reflectance. split.
  - ring.
  - unfold Rdiv. ring.
Qed.

(** ** diffuse_light *)

(** C6.  [diffuse_light::emitted] is the texture value at [(u, v, p)] on a
    front face and [(0,0,0)] on a back face, for every texture, ray, hit
    record and coordinates; [diffuse_light::scatter] returns [false]. *)
Theorem diffuse_light_spec (m : diffuse_light.diffuse_light) (r_in : ray)
    (rec : hit_record) (u v : double) (q : point3) (s : state) :
  diffuse_light.emitted m r_in rec u v q
  = (if front_face rec
     then value (diffuse_light.emit m) u v q
     else vec 0 0 0) /\
  returned (diffuse_light.scatter m r_in rec) s = false.
Proof.
  unfold diffuse_light.emitted, diffuse_light.scatter, returned, ret.
  destruct (front_face rec); split; reflexivity.
Qed.

(** ** isotropic *)

(** C7.  [isotropic::scattering_pdf] returns [1 / (4 * pi)] whatever its
    three arguments; [isotropic::scatter] returns [true], sets [pdf] to the
    same constant and the attenuation to the texture value at
    [(rec.u, rec.v, rec.p)]. *)
Theorem isotropic_spec (m : isotropic.isotropic) (r_in : ray)
    (rec : hit_record) (sc : ray) (s : state) :
  let s' := final (isotropic.scatter m r_in rec) s in
  isotropic.scattering_pdf m r_in rec sc = Some (1 / (4 * pi)) /\
  returned (isotropic.scatter m r_in rec) s = true /\
  pdf s' = 1 / (4 * pi) /\
  attenuation s' = value (isotropic.albedo m) (u rec) (v rec) (p rec).
Proof.
  intros s'. subst s'. unfold isotropic.scattering_pdf, return_.
  unfold isotropic.scatter. run_body.
  destruct (random_unit_vector (gen s)) as [rv g]; simpl.
  repeat split.
Qed.

(** ** Output parameters left alone *)

(** C10.  [metal::scatter], [dielectric::scatter] and
    [diffuse_light::scatter] do not assign [pdf]: after the call it holds
    what it held before, whatever the call returns.
    [diffuse_light::scatter] leaves the attenuation and the scattered ray
    as they were too. *)
Theorem scatter_leaves_pdf (mm : metal.metal)
    (md : dielectric.dielectric) (ml : diffuse_light.diffuse_light)
    (r_in : ray) (rec : hit_record) (s : state) :
  pdf (final (metal.scatter mm r_in rec) s) = pdf s /\
  pdf (final (dielectric.scatter md r_in rec) s) = pdf s /\
  pdf (final (diffuse_light.scatter ml r_in rec) s) = pdf s /\
  attenuation (final (diffuse_light.scatter ml r_in rec) s)
  = attenuation s /\
  scattered (final (diffuse_light.scatter ml r_in rec) s) = scattered s.
Proof.
  unfold final. rewrite metal_scatter_run, dielectric_scatter_run.
  unfold diffuse_light.scatter, ret. simpl. repeat split.
Qed.
End Properties.

(** * Concrete runs *)

Lemma length_down : length (vec 0 0 (-1)) = 1.
Proof.
  unfold length, length_squared, dot; simpl.
  replace (0 * 0 + 0 * 0 + -1 * -1) with 1 by ring.
  exact sqrt_1.
Qed.

Lemma length_east : length (vec 1 0 0) = 1.
Proof.
  unfold length, length_squared, dot; simpl.
  replace (1 * 1 + 0 * 0 + 0 * 0) with 1 by ring.
  exact sqrt_1.
Qed.

(** The mirror reflection of the falling ray on the floor points up. *)
Lemma reflect_down_up :
  reflect (unit_vector (direction sample.down)) (normal sample.floor_hit)
  = vec 0 0 1.
Proof.
  unfold unit_vector, vdiv. simpl direction. rewrite length_down.
  apply vec_eq; simpl; unfold dot; simpl; field.
Qed.

(** The falling ray meets the floor at normal incidence. *)
Lemma cos_theta_down :
  fmin (dot (- unit_vector (vec 0 0 (-1))) (vec 0 0 1)) 1 = 1.
Proof.
  unfold unit_vector, vdiv. rewrite length_down. unfold dot, fmin; simpl.
  replace (- (1 / 1 * 0) * 0 + - (1 / 1 * 0) * 0 + - (1 / 1 * -1) * 1)
    with 1 by field.
  apply Rmin_left. lra.
Qed.

(** A ray along the surface meets it at a right angle to the normal. *)
Lemma cos_theta_east :
  fmin (dot (- unit_vector (vec 1 0 0)) (vec 0 0 1)) 1 = 0.
Proof.
  unfold unit_vector, vdiv. rewrite length_east. unfold dot, fmin; simpl.
  replace (- (1 / 1 * 1) * 0 + - (1 / 1 * 0) * 0 + - (1 / 1 * 0) * 1)
    with 0 by field.
  apply Rmin_left. lra.
Qed.

(** The end-to-end scenario: a ray along [(0,0,-1)] onto a surface with
    normal [(0,0,1)] and a Lambertian of constant albedo [(0.5,0.5,0.5)].
    [scatter] returns [true], the attenuation is the albedo and the density
    is positive. *)
Lemma lambertian_scatter_spec_witness :
  returned (lambertian.scatter (H := sample.fixed)
              (lambertian.of_color sample.grey) sample.down
              sample.floor_hit) sample.start = true /\
  attenuation (final (lambertian.scatter (H := sample.fixed)
                 (lambertian.of_color sample.grey) sample.down
                 sample.floor_hit) sample.start) = sample.grey /\
  0 < pdf (final (lambertian.scatter (H := sample.fixed)
             (lambertian.of_color sample.grey) sample.down
             sample.floor_hit) sample.start).
Proof.
  destruct (lambertian_scatter_spec (H := sample.fixed)
              (lambertian.of_color sample.grey) sample.down
              sample.floor_hit sample.start)
    as (Hret & Hatt & _ & _ & _ & _ & Hpos).
  split; [exact Hret | split; [exact Hatt | ]].
  apply Hpos.
  - unfold length_squared, dot; simpl. ring.
  - simpl. lra.
Defined.

(** The constructor stores a negative fuzz as it is. *)
Lemma metal_fuzz_negative :
  metal.fuzz (metal.make sample.grey (-1)) = -1 /\
  ~ (0 <= metal.fuzz (metal.make sample.grey (-1)) <= 1).
Proof.
  rewrite metal_make_fuzz. unfold Rmin.
  destruct (Rle_dec (-1) 1) as [Hle | Hgt]; [ | lra].
  split; [reflexivity | lra].
Qed.

(** The falling ray on a mirror with fuzz [0] leaves straight up. *)
Lemma metal_fuzz_zero_mirror_witness :
  dot (reflect (unit_vector (direction sample.down))
         (normal sample.floor_hit)) (normal sample.floor_hit) > 0 /\
  returned (metal.scatter (H := sample.fixed) (metal.make sample.grey 0)
              sample.down sample.floor_hit) sample.start = true /\
  direction (scattered (final (metal.scatter (H := sample.fixed)
                                 (metal.make sample.grey 0) sample.down
                                 sample.floor_hit) sample.start))
  = reflect (unit_vector (direction sample.down)) (normal sample.floor_hit).
Proof.
  assert (Hside :
    dot (reflect (unit_vector (direction sample.down))
           (normal sample.floor_hit)) (normal sample.floor_hit) > 0).
  { rewrite reflect_down_up. unfold dot; simpl. lra. }
  split; [exact Hside | ].
  apply (metal_fuzz_zero_mirror (H := sample.fixed)). exact Hside.
Defined.

(** Evaluating a call of [dielectric::scatter] on the sample collaborators
    down to the arithmetic. *)
Ltac run_dielectric :=
  rewrite dielectric_scatter_run; cbv zeta;
  cbn [normal direction front_face p time pdf gen fst snd
       sample.floor_hit sample.down sample.start sample.fixed
       dielectric.ir random_double refract].

(** At normal incidence on glass ([ir = 1.5], front face) the reflectance
    is [0.04]; the draw [1/2] is above it and the ray is refracted, the
    generator having advanced once. *)
Example dielectric_refracts_falling_ray :
  dielectric.scatter (H := sample.fixed) (dielectric.mk 1.5) sample.down
    sample.floor_hit sample.start
  = (true,
     @mk_state sample.fixed (vec 1 1 1)
       (mk_ray (vec 0 0 0)
          (sample.snell (unit_vector (vec 0 0 (-1))) (vec 0 0 1) (1 / 1.5))
          0)
       7 1%nat).
Proof.
  run_dielectric. rewrite cos_theta_down.
  replace (1 - 1 * 1) with 0 by ring. rewrite sqrt_0.
  assert (Htir : gtb (1 / 1.5 * 0) 1 = false) by (apply gtb_false; lra).
  assert (Hdraw : gtb (dielectric.reflectance 1 (1 / 1.5)) (1 / 2) = false).
  { apply gtb_false. unfold dielectric.reflectance. lra. }
  rewrite Htir, Hdraw. reflexivity.
Qed.

(** A grazing ray inside glass ([ir = 1.5], back face) cannot refract: it
    is reflected and the generator is not consulted. *)
Example dielectric_total_internal_reflection :
  dielectric.scatter (H := sample.fixed) (dielectric.mk 1.5)
    (mk_ray (vec 0 0 0) (vec 1 0 0) 0)
    (mk_hit_record (vec 0 0 0) (vec 0 0 1) 1 0 0 false) sample.start
  = (true,
     @mk_state sample.fixed (vec 1 1 1)
       (mk_ray (vec 0 0 0)
          (reflect (unit_vector (vec 1 0 0)) (vec 0 0 1)) 0)
       7 0%nat).
Proof.
  run_dielectric. rewrite cos_theta_east.
  replace (1 - 0 * 0) with 1 by ring. rewrite sqrt_1.
  assert (Htir : gtb (1.5 * 1) 1 = true) by (apply gtb_true; lra).
  rewrite Htir. reflexivity.
Qed.

(** * Further properties of the materials *)

(** ** Arithmetic used below *)

Lemma sqrt_le_one (a : R) : a <= 1 -> 0 <= sqrt a <= 1.
Proof.
  intro Ha. split; [apply sqrt_pos | ].
  rewrite <- sqrt_1. apply sqrt_le_1_alt. exact Ha.
Qed.

Lemma pow5_unit (c : R) : 0 <= c <= 1 -> 0 <= (1 - c) ^ 5 <= 1.
Proof.
  intros [H0 H1]. split.
  - apply pow_le. lra.
  - replace 1 with (1 ^ 5) at 2 by ring. apply pow_incr. lra.
Qed.

(** The squared quotient [r0] of Schlick's formula is at most [1] for a
    non-negative index. *)
Lemma schlick_r0_unit (n : R) :
  0 <= n ->
  0 <= (1 - n) / (1 + n) * ((1 - n) / (1 + n)) <= 1.
Proof.
  intro Hn.
  assert (Hq : (1 - n) / (1 + n) * (1 + n) = 1 - n) by (field; lra).
  set (q := (1 - n) / (1 + n)) in *.
  assert (Hlo : -1 <= q) by nra.
  assert (Hhi : q <= 1) by nra.
  split; nra.
Qed.

(** Lagrange's identity, as the Cauchy-Schwarz bound. *)
Lemma dot_squared_le (a b : vec3) :
  dot a b * dot a b <= length_squared a * length_squared b.
Proof.
  assert (Hid : length_squared a * length_squared b - dot a b * dot a b
                = length_squared (cross a b)).
  { destruct a, b; unfold length_squared, cross, dot; simpl. ring. }
  assert (Hpos : 0 <= length_squared (cross a b)).
  { destruct (cross a b) as [c1 c2 c3]; unfold length_squared, dot; simpl.
    nra. }
  lra.
Qed.

Lemma dot_vadd_vscale (a b n : vec3) (k : R) :
  dot (a + k * b)%vec n = dot a n + k * dot b n.
Proof. destruct a, b, n; unfold dot; simpl. ring. Qed.

Lemma dot_reflect (a n : vec3) :
  dot (reflect a n) n = dot a n * (1 - 2 * length_squared n).
Proof.
  destruct a, n; unfold reflect, length_squared, dot; simpl. ring.
Qed.

Lemma length_squared_reflect (a n : vec3) :
  length_squared (reflect a n)
  = length_squared a + 4 * (dot a n * dot a n) * (length_squared n - 1).
Proof.
  destruct a, n; unfold reflect, length_squared, dot; simpl. ring.
Qed.

Lemma length_squared_unit_vector (a : vec3) :
  a <> vec 0 0 0 -> length_squared (unit_vector a) = 1.
Proof.
  intro Hne. pose proof (length_squared_pos a Hne) as Hpos.
  assert (Hs : sqrt (length_squared a) * sqrt (length_squared a)
               = length_squared a) by (apply sqrt_sqrt; lra).
  assert (Hl : 0 < sqrt (length_squared a)) by (apply sqrt_lt_R0; exact Hpos).
  unfold unit_vector, vdiv, length.
  set (l := sqrt (length_squared a)) in *.
  assert (Hexp : length_squared (vscale (1 / l) a)
                 = length_squared a / (l * l)).
  { destruct a; unfold length_squared, dot; simpl. field. lra. }
  rewrite Hexp, Hs. field. lra.
Qed.

(** ** Schlick's reflectance *)

(** X1.  For a non-negative index and a cosine in [[0,1]] the reflectance
    is a probability: it lies between its value at normal incidence, which
    is non-negative, and [1]. *)
Theorem reflectance_is_probability (cosine ref_idx : double) :
  0 <= ref_idx -> 0 <= cosine <= 1 ->
  0 <= dielectric.reflectance 1 ref_idx
    <= dielectric.reflectance cosine ref_idx /\
  dielectric.reflectance cosine ref_idx <= 1.
Proof.
  intros Hn Hc. unfold dielectric.reflectance.
  pose proof (schlick_r0_unit ref_idx Hn) as Hr0.
  pose proof (pow5_unit cosine Hc) as Hp.
  set (r0 := (1 - ref_idx) / (1 + ref_idx)
             * ((1 - ref_idx) / (1 + ref_idx))) in *.
  replace ((1 - 1) ^ 5) with 0 by ring.
  set (w5 := (1 - cosine) ^ 5) in *.
  repeat split; nra.
Qed.

(** X2.  At grazing incidence, [cosine = 0], the reflectance is [1]
    whatever the index. *)
Theorem reflectance_grazing (ref_idx : double) :
  dielectric.reflectance 0 ref_idx = 1.
Proof. unfold dielectric.reflectance. ring. Qed.

(** X3.  In exact arithmetic, for a positive index the reflectance is the
    same for the index and for its reciprocal: entering and leaving the
    medium at the same cosine reflect alike.  (Rounded doubles agree up to
    rounding only.) *)
Theorem reflectance_reciprocal (cosine ref_idx : double) :
  0 < ref_idx ->
  dielectric.reflectance cosine (1 / ref_idx)
  = dielectric.reflectance cosine ref_idx.
Proof.
  intro Hn. unfold dielectric.reflectance.
  assert (Hq : (1 - 1 / ref_idx) / (1 + 1 / ref_idx)
               = - ((1 - ref_idx) / (1 + ref_idx))).
  { field. repeat split; lra. }
  rewrite Hq. ring.
Qed.

(** X4.  For a non-negative index the reflectance does not grow with the
    cosine on [[0,1]]: the flatter the incidence, the more is reflected. *)
Theorem reflectance_antitone (c1 c2 ref_idx : double) :
  0 <= ref_idx -> 0 <= c1 -> c1 <= c2 -> c2 <= 1 ->
  dielectric.reflectance c2 ref_idx <= dielectric.reflectance c1 ref_idx.
Proof.
  intros Hn H0 H12 H1. unfold dielectric.reflectance.
  pose proof (schlick_r0_unit ref_idx Hn) as Hr0.
  set (r0 := (1 - ref_idx) / (1 + ref_idx)
             * ((1 - ref_idx) / (1 + ref_idx))) in *.
  assert (Hpow : (1 - c2) ^ 5 <= (1 - c1) ^ 5) by (apply pow_incr; lra).
  nra.
Qed.

Section MoreProperties.
Context `{collaborators}.

(** ** dielectric *)

(** The sine computed by [dielectric::scatter] never exceeds [1]. *)
Lemma sin_theta_unit (c : R) : 0 <= sqrt (1 - c * c) <= 1.
Proof. apply sqrt_le_one. nra. Qed.

(** X5.  When the refraction ratio is at most [1] (a front face with
    [ir >= 1], or a back face with [ir <= 1]) the test for total internal
    reflection fails: the generator is consulted exactly once and the draw
    alone decides between reflection and refraction. *)
Theorem dielectric_no_total_reflection (m : dielectric.dielectric)
    (r_in : ray) (rec : hit_record) (s : state) :
  let ratio :=
    if front_face rec then 1 / dielectric.ir m else dielectric.ir m in
  let unit_direction := unit_vector (direction r_in) in
  let cos_theta := Rmin (dot (- unit_direction) (normal rec)) 1 in
  let s' := final (dielectric.scatter m r_in rec) s in
  ratio <= 1 ->
  gen s' = snd (random_double (gen s)) /\
  direction (scattered s')
  = if gtb (dielectric.reflectance cos_theta ratio)
           (fst (random_double (gen s)))
    then reflect unit_direction (normal rec)
    else refract unit_direction (normal rec) ratio.
Proof.
  intros ratio unit_direction cos_theta s' Hratio. subst s'.
  unfold final. rewrite dielectric_scatter_run.
  unfold fmin. fold unit_direction. fold ratio. fold cos_theta. simpl.
  pose proof (sin_theta_unit cos_theta) as Hsin.
  assert (Htir : gtb (ratio * sqrt (1 - cos_theta * cos_theta)) 1 = false).
  { apply gtb_false. nra. }
  rewrite Htir. simpl. split; reflexivity.
Qed.

(** X6.  In a matching medium, [ir = 1], total internal reflection never
    occurs on either face and the ray is reflected exactly when the draw is
    below [(1 - cos_theta)^5]. *)
Theorem dielectric_matching_medium (r_in : ray) (rec : hit_record)
    (s : state) :
  let unit_direction := unit_vector (direction r_in) in
  let cos_theta := Rmin (dot (- unit_direction) (normal rec)) 1 in
  let s' := final (dielectric.scatter (dielectric.mk 1) r_in rec) s in
  gen s' = snd (random_double (gen s)) /\
  direction (scattered s')
  = if gtb ((1 - cos_theta) ^ 5) (fst (random_double (gen s)))
    then reflect unit_direction (normal rec)
    else refract unit_direction (normal rec) 1.
Proof.
  intros unit_direction cos_theta s'. subst s'.
  unfold final. rewrite dielectric_scatter_run.
  unfold fmin. fold unit_direction. fold cos_theta. simpl.
  pose proof (sin_theta_unit cos_theta) as Hsin.
  assert (Hone : (if front_face rec then 1 / 1 else 1) = 1).
  { destruct (front_face rec); [field | reflexivity]. }
  rewrite Hone.
  assert (Htir : gtb (1 * sqrt (1 - cos_theta * cos_theta)) 1 = false).
  { apply gtb_false. nra. }
  assert (Hrefl : dielectric.reflectance cos_theta 1 = (1 - cos_theta) ^ 5).
  { unfold dielectric.reflectance. unfold Rdiv. ring. }
  rewrite Htir, Hrefl. simpl. split; reflexivity.
Qed.

(** X7.  Under total internal reflection glass sends the ray where a
    mirror without fuzz sends it. *)
Theorem dielectric_total_reflection_is_mirror (m : dielectric.dielectric)
    (a : color) (r_in : ray) (rec : hit_record) (s : state) :
  let ratio :=
    if front_face rec then 1 / dielectric.ir m else dielectric.ir m in
  let cos_theta :=
    Rmin (dot (- unit_vector (direction r_in)) (normal rec)) 1 in
  ratio * sqrt (1 - cos_theta * cos_theta) > 1 ->
  scattered (final (dielectric.scatter m r_in rec) s)
  = scattered (final (metal.scatter (metal.make a 0) r_in rec) s) /\
  gen (final (dielectric.scatter m r_in rec) s) = gen s.
Proof.
  intros ratio cos_theta Htir.
  unfold final. rewrite dielectric_scatter_run, metal_scatter_run.
  unfold fmin. fold ratio. fold cos_theta.
  apply gtb_true in Htir. rewrite Htir. simpl.
  assert (Hfuzz : (if ltb 0 1 then 0 else 1) = 0).
  { unfold ltb. destruct (Rlt_dec 0 1) as [_ | Hno]; [reflexivity | lra]. }
  rewrite Hfuzz, vadd_vscale_0. split; reflexivity.
Qed.

(** ** Use of the random generator *)

(** What [isotropic::scatter] leaves behind and returns. *)
Lemma isotropic_scatter_run (m : isotropic.isotropic) (r_in : ray)
    (rec : hit_record) (s : state) :
  isotropic.scatter m r_in rec s =
  (true,
   mk_state (value (isotropic.albedo m) (u rec) (v rec) (p rec))
     (mk_ray (p rec) (fst (random_unit_vector (gen s))) (time r_in))
     (1 / (4 * pi))
     (snd (random_unit_vector (gen s)))).
Proof.
  unfold isotropic.scatter. run_body.
  destruct (random_unit_vector (gen s)) as [rv g]; reflexivity.
Qed.

(** X8.  Each [scatter] advances the generator by a fixed sampler call:
    one cosine direction for [lambertian], one unit vector for [metal]
    (whatever its fuzz) and for [isotropic], none for [diffuse_light], and
    for [dielectric] one uniform draw unless total internal reflection
    already decided, in which case none. *)
Theorem scatter_generator_use (ml : lambertian.lambertian)
    (mm : metal.metal) (md : dielectric.dielectric)
    (me : diffuse_light.diffuse_light) (mi : isotropic.isotropic)
    (r_in : ray) (rec : hit_record) (s : state) :
  let ratio :=
    if front_face rec then 1 / dielectric.ir md else dielectric.ir md in
  let cos_theta :=
    Rmin (dot (- unit_vector (direction r_in)) (normal rec)) 1 in
  gen (final (lambertian.scatter ml r_in rec) s)
  = snd (random_cosine_direction (gen s)) /\
  gen (final (metal.scatter mm r_in rec) s)
  = snd (random_unit_vector (gen s)) /\
  gen (final (isotropic.scatter mi r_in rec) s)
  = snd (random_unit_vector (gen s)) /\
  gen (final (diffuse_light.scatter me r_in rec) s) = gen s /\
  gen (final (dielectric.scatter md r_in rec) s)
  = if gtb (ratio * sqrt (1 - cos_theta * cos_theta)) 1
    then gen s
    else snd (random_double (gen s)).
Proof.
  intros ratio cos_theta. unfold final.
  rewrite lambertian_scatter_run, metal_scatter_run, isotropic_scatter_run,
    dielectric_scatter_run.
  unfold diffuse_light.scatter, ret, fmin. simpl. repeat split.
Qed.

(** ** metal *)

(** X9.  In exact arithmetic, on a unit normal a mirror without fuzz
    scatters exactly the rays that travel against the normal: [scatter]
    returns [true] if and only if the normalised incoming direction has a
    negative inner product with it.  (At grazing incidence rounding can
    decide either way.) *)
Theorem metal_mirror_scatters_iff_facing (a : color) (r_in : ray)
    (rec : hit_record) (s : state) :
  length_squared (normal rec) = 1 ->
  returned (metal.scatter (metal.make a 0) r_in rec) s = true
  <-> dot (unit_vector (direction r_in)) (normal rec) < 0.
Proof.
  intro Hunit. unfold returned. rewrite metal_scatter_run. simpl.
  assert (Hfuzz : (if ltb 0 1 then 0 else 1) = 0).
  { unfold ltb. destruct (Rlt_dec 0 1) as [_ | Hno]; [reflexivity | lra]. }
  rewrite Hfuzz, vadd_vscale_0, gtb_true, dot_reflect, Hunit.
  split; intro Hyp; lra.
Qed.

(** X10.  On a unit normal a mirror without fuzz sends a ray of non-zero
    direction into a direction of unit length. *)
Theorem metal_mirror_direction_unit (a : color) (r_in : ray)
    (rec : hit_record) (s : state) :
  length_squared (normal rec) = 1 ->
  direction r_in <> vec 0 0 0 ->
  length_squared
    (direction
       (scattered (final (metal.scatter (metal.make a 0) r_in rec) s)))
  = 1.
Proof.
  intros Hunit Hdir. unfold final. rewrite metal_scatter_run. simpl.
  assert (Hfuzz : (if ltb 0 1 then 0 else 1) = 0).
  { unfold ltb. destruct (Rlt_dec 0 1) as [_ | Hno]; [reflexivity | lra]. }
  rewrite Hfuzz, vadd_vscale_0, length_squared_reflect, Hunit.
  rewrite (length_squared_unit_vector _ Hdir). ring.
Qed.

(** X11.  In exact arithmetic, with a unit normal, a unit vector drawn and
    a non-negative fuzz, the fuzz bounds what the perturbation can do: a
    mirror reflection whose inner product with the normal exceeds the fuzz
    is always scattered, and one whose inner product is at most minus the
    fuzz is always absorbed.  (Within rounding of either bound the rounded
    sum can fall on the other side.) *)
Theorem metal_fuzz_margin (m : metal.metal) (r_in : ray)
    (rec : hit_record) (s : state) :
  let reflected := reflect (unit_vector (direction r_in)) (normal rec) in
  length_squared (normal rec) = 1 ->
  length_squared (fst (random_unit_vector (gen s))) = 1 ->
  0 <= metal.fuzz m ->
  (dot reflected (normal rec) > metal.fuzz m ->
   returned (metal.scatter m r_in rec) s = true) /\
  (dot reflected (normal rec) <= - metal.fuzz m ->
   returned (metal.scatter m r_in rec) s = false).
Proof.
  intros reflected Hn Hrv Hfuzz. subst reflected.
  unfold returned. rewrite metal_scatter_run. simpl.
  rewrite dot_vadd_vscale.
  pose proof (dot_squared_le (fst (random_unit_vector (gen s)))
                (normal rec)) as Hcs.
  rewrite Hn, Hrv in Hcs.
  set (D := dot (fst (random_unit_vector (gen s))) (normal rec)) in *.
  set (R0 := dot (reflect (unit_vector (direction r_in)) (normal rec))
               (normal rec)) in *.
  assert (HD : -1 <= D <= 1) by nra.
  split; intro Hyp.
  - apply gtb_true. nra.
  - apply gtb_false. nra.
Qed.

(** X12.  Building a metal from the fuzz a metal already stores gives the
    same metal, and the stored fuzz is monotone in the argument. *)
Theorem metal_make_idempotent (a : color) (f : double) :
  metal.make a (metal.fuzz (metal.make a f)) = metal.make a f /\
  metal.albedo (metal.make a f) = a /\
  (forall g : double,
     f <= g -> metal.fuzz (metal.make a f) <= metal.fuzz (metal.make a g)).
Proof.
  split; [ | split; [reflexivity | ]].
  - unfold metal.make, ltb; simpl.
    destruct (Rlt_dec f 1) as [Hlt | Hge].
    + destruct (Rlt_dec f 1) as [_ | Hno]; [reflexivity | contradiction].
    + destruct (Rlt_dec 1 1) as [Hlt | _]; [lra | reflexivity].
  - intros g Hfg. rewrite !metal_make_fuzz. unfold Rmin.
    destruct (Rle_dec f 1), (Rle_dec g 1); lra.
Qed.

(** ** lambertian *)

(** The second axis of the basis is orthogonal to the normal, whatever the
    helper axis. *)
Lemma onb_v_orthogonal (n : vec3) :
  dot (onb.v (onb.build_from_w n)) n = 0.
Proof.
  unfold onb.build_from_w, unit_vector, vdiv; simpl.
  generalize (1 / length (cross (helper_axis n) n)) as k.
  generalize (helper_axis n) as a.
  intros a k. destruct n, a; unfold dot; simpl. ring.
Qed.

(** The squared length of [x*(b x n) + y*b + z*n], for any [b] and [n]. *)
Lemma length_squared_frame (b n d : vec3) :
  length_squared (x d * cross b n + y d * b + z d * n)%vec
  = x d * x d
    * (length_squared b * length_squared n - dot b n * dot b n)
    + y d * y d * length_squared b
    + z d * z d * length_squared n
    + 2 * y d * z d * dot b n.
Proof.
  destruct b, n, d; unfold length_squared, dot; simpl. ring.
Qed.

(** X13.  On a unit normal and for a draw whose local [z] lies in [[0,1]],
    the scattered direction has inner product [z] with the normal, so it
    stays on the normal's side, and the density stored is [z / pi], between
    [0] and [1 / pi]. *)
Theorem lambertian_pdf_bounds (m : lambertian.lambertian) (r_in : ray)
    (rec : hit_record) (s : state) :
  let d := fst (random_cosine_direction (gen s)) in
  let s' := final (lambertian.scatter m r_in rec) s in
  length_squared (normal rec) = 1 ->
  0 <= z d <= 1 ->
  dot (direction (scattered s')) (normal rec) = z d /\
  pdf s' = z d / pi /\
  0 <= pdf s' <= 1 / pi.
Proof.
  intros d s' Hunit Hz. subst s'.
  rewrite lambertian_scatter_pdf. fold d. rewrite Hunit.
  unfold final. rewrite lambertian_scatter_run. simpl. fold d.
  pose proof pi_pos as Hpi.
  assert (Hinv : 0 < / pi) by (apply Rinv_0_lt_compat; exact Hpi).
  split; [ | split; [ | split]].
  - replace (dot (onb.local (onb.build_from_w (normal rec)) d) (normal rec))
      with (dot (normal rec) (onb.local (onb.build_from_w (normal rec)) d)).
    + rewrite dot_local_build_from_w, Hunit. ring.
    + unfold dot. ring.
  - unfold Rdiv. ring.
  - unfold Rdiv. nra.
  - unfold Rdiv. nra.
Qed.

(** X14.  On a unit normal that the helper axis is not parallel to, the
    basis is orthonormal: the scattered direction is as long as the local
    direction drawn, so a unit draw gives a unit direction. *)
Theorem lambertian_direction_length (m : lambertian.lambertian)
    (r_in : ray) (rec : hit_record) (s : state) :
  let d := fst (random_cosine_direction (gen s)) in
  length_squared (normal rec) = 1 ->
  cross (helper_axis (normal rec)) (normal rec) <> vec 0 0 0 ->
  length_squared
    (direction (scattered (final (lambertian.scatter m r_in rec) s)))
  = length_squared d.
Proof.
  intros d Hunit Hcross.
  unfold final. rewrite lambertian_scatter_run. simpl. fold d.
  pose proof (onb_v_orthogonal (normal rec)) as Hvn.
  pose proof (length_squared_unit_vector _ Hcross) as Hv.
  unfold onb.local, onb.build_from_w in *. simpl in *.
  rewrite length_squared_frame, Hvn, Hv, Hunit.
  destruct d; unfold length_squared, dot; simpl. ring.
Qed.

(** X15.  Diffuse scattering does not look at where the ray came from: two
    incoming rays that agree on their time give the same result in
    [lambertian::scatter] and in [isotropic::scatter], whatever their
    origins and directions. *)
Theorem diffuse_scatter_ignores_incoming (ml : lambertian.lambertian)
    (mi : isotropic.isotropic) (r1 r2 : ray) (rec : hit_record)
    (s : state) :
  time r1 = time r2 ->
  lambertian.scatter ml r1 rec s = lambertian.scatter ml r2 rec s /\
  isotropic.scatter mi r1 rec s = isotropic.scatter mi r2 rec s.
Proof.
  intro Htime.
  rewrite !lambertian_scatter_run, !isotropic_scatter_run, Htime.
  split; reflexivity.
Qed.

(** X16.  [isotropic::scatter] reads the hit point and the surface
    coordinates only: two hit records that agree on [p], [u] and [v] give
    the same result, whatever their normals and faces. *)
Theorem isotropic_scatter_ignores_normal (m : isotropic.isotropic)
    (r_in : ray) (rec1 rec2 : hit_record) (s : state) :
  p rec1 = p rec2 -> u rec1 = u rec2 -> v rec1 = v rec2 ->
  isotropic.scatter m r_in rec1 s = isotropic.scatter m r_in rec2 s.
Proof.
  intros Hp Hu Hv. rewrite !isotropic_scatter_run, Hp, Hu, Hv. reflexivity.
Qed.

(** ** Materials built from a colour *)

(** X18.  A material built from a colour carries it to every hit: the
    attenuation of such a [lambertian] and of such an [isotropic] is that
    colour whatever the surface coordinates and the hit point, and such a
    [diffuse_light] emits that colour from its front face everywhere. *)
Theorem of_color_is_constant (c : color) (r_in : ray) (rec : hit_record)
    (u0 v0 : double) (q : point3) (s : state) :
  attenuation (final (lambertian.scatter (lambertian.of_color c) r_in rec) s)
  = c /\
  attenuation (final (isotropic.scatter (isotropic.of_color c) r_in rec) s)
  = c /\
  diffuse_light.emitted (diffuse_light.of_color c) r_in rec u0 v0 q
  = (if front_face rec then c else vec 0 0 0).
Proof.
  unfold final. rewrite lambertian_scatter_run, isotropic_scatter_run.
  unfold diffuse_light.emitted. simpl.
  destruct (front_face rec); repeat split.
Qed.
End MoreProperties.

(** ** rtweekend.h *)

(** X17.  In exact arithmetic [degrees_to_radius] is linear and strictly
    increasing, and it takes a half turn to [pi].  (On rounded doubles
    neighbouring arguments can share a value and linearity holds up to
    rounding.) *)
Theorem degrees_to_radius_linear (a b k : double) :
  degrees_to_radius (a + k * b)
  = degrees_to_radius a + k * degrees_to_radius b /\
  (a < b <-> degrees_to_radius a < degrees_to_radius b) /\
  degrees_to_radius 180 = pi.
Proof.
  unfold degrees_to_radius. pose proof pi_pos as Hpi.
  split; [field | split; [ | field]].
  split; intro Hlt; nra.
Qed.

(** * Concrete runs of the further properties *)

Lemma reflectance_is_probability_witness :
  0 <= dielectric.reflectance 1 1.5
    <= dielectric.reflectance (1 / 2) 1.5 /\
  dielectric.reflectance (1 / 2) 1.5 <= 1.
Proof. apply (reflectance_is_probability (1 / 2) 1.5); lra. Defined.

Lemma reflectance_reciprocal_witness :
  dielectric.reflectance (1 / 2) (1 / 1.5)
  = dielectric.reflectance (1 / 2) 1.5.
Proof. apply (reflectance_reciprocal (1 / 2) 1.5); lra. Defined.

Lemma reflectance_antitone_witness :
  dielectric.reflectance (3 / 4) 1.5 <= dielectric.reflectance (1 / 4) 1.5.
Proof. apply (reflectance_antitone (1 / 4) (3 / 4) 1.5); lra. Defined.

(** Glass met from outside: the ratio is [1 / 1.5]. *)
Lemma dielectric_no_total_reflection_witness :
  1 / 1.5 <= 1 /\
  gen (final (dielectric.scatter (H := sample.fixed) (dielectric.mk 1.5)
                sample.down sample.floor_hit) sample.start) = 1%nat.
Proof.
  assert (Hratio : 1 / 1.5 <= 1) by lra.
  split; [exact Hratio | ].
  apply (dielectric_no_total_reflection (H := sample.fixed)
           (dielectric.mk 1.5) sample.down sample.floor_hit sample.start).
  exact Hratio.
Defined.

(** Glass met from inside along the surface: [1.5 * 1 > 1]. *)
Lemma dielectric_total_reflection_is_mirror_witness :
  scattered (final (dielectric.scatter (H := sample.fixed)
                      (dielectric.mk 1.5) sample.east sample.inside_hit)
               sample.start)
  = scattered (final (metal.scatter (H := sample.fixed)
                        (metal.make sample.grey 0) sample.east
                        sample.inside_hit) sample.start) /\
  gen (final (dielectric.scatter (H := sample.fixed) (dielectric.mk 1.5)
                sample.east sample.inside_hit) sample.start)
  = gen sample.start.
Proof.
  apply (dielectric_total_reflection_is_mirror (H := sample.fixed)
           (dielectric.mk 1.5) sample.grey sample.east sample.inside_hit
           sample.start).
  simpl. pose proof cos_theta_east as Hcos. unfold fmin in Hcos.
  rewrite Hcos. replace (1 - 0 * 0) with 1 by ring. rewrite sqrt_1. lra.
Defined.

Lemma length_squared_up : length_squared (vec 0 0 1) = 1.
Proof. unfold length_squared, dot; simpl. ring. Qed.

Lemma down_not_zero : vec 0 0 (-1) <> vec 0 0 0.
Proof. intro Heq. injection Heq as Hz. lra. Qed.

Lemma metal_mirror_scatters_iff_facing_witness :
  returned (metal.scatter (H := sample.fixed) (metal.make sample.grey 0)
              sample.down sample.floor_hit) sample.start = true
  <-> dot (unit_vector (direction sample.down)) (normal sample.floor_hit)
      < 0.
Proof.
  apply (metal_mirror_scatters_iff_facing (H := sample.fixed)).
  exact length_squared_up.
Defined.

Lemma metal_mirror_direction_unit_witness :
  length_squared
    (direction
       (scattered (final (metal.scatter (H := sample.fixed)
                            (metal.make sample.grey 0) sample.down
                            sample.floor_hit) sample.start)))
  = 1.
Proof.
  apply (metal_mirror_direction_unit (H := sample.fixed)).
  - exact length_squared_up.
  - exact down_not_zero.
Defined.

Lemma length_up : length (vec 0 0 1) = 1.
Proof.
  unfold length, length_squared, dot; simpl.
  replace (0 * 0 + 0 * 0 + 1 * 1) with 1 by ring.
  exact sqrt_1.
Qed.

(** The mirror reflection of the rising ray points into the floor. *)
Lemma reflect_up_down :
  reflect (unit_vector (direction sample.rising)) (normal sample.floor_hit)
  = vec 0 0 (-1).
Proof.
  unfold unit_vector, vdiv. simpl direction. rewrite length_up.
  apply vec_eq; simpl; unfold dot; simpl; field.
Qed.

(** A metal of fuzz [1/2].  Under the falling ray the mirror reflection has
    inner product [1] with the normal, beyond the fuzz, and the ray is
    scattered; under the rising ray it has inner product [-1], below minus
    the fuzz, and the ray is absorbed. *)
Lemma metal_fuzz_margin_witness :
  returned (metal.scatter (H := sample.fixed) (metal.make sample.grey (1 / 2))
              sample.down sample.floor_hit) sample.start = true /\
  returned (metal.scatter (H := sample.fixed) (metal.make sample.grey (1 / 2))
              sample.rising sample.floor_hit) sample.start = false.
Proof.
  assert (Hfuzz : metal.fuzz (metal.make sample.grey (1 / 2)) = 1 / 2).
  { rewrite metal_make_fuzz. apply Rmin_left. lra. }
  assert (Hrv : length_squared
                  (fst (random_unit_vector (collaborators := sample.fixed)
                          (gen sample.start))) = 1).
  { unfold length_squared, dot; simpl. ring. }
  assert (Hpos : 0 <= metal.fuzz (metal.make sample.grey (1 / 2)))
    by (rewrite Hfuzz; lra).
  split.
  - apply (metal_fuzz_margin (H := sample.fixed)
             (metal.make sample.grey (1 / 2)) sample.down sample.floor_hit
             sample.start length_squared_up Hrv Hpos).
    rewrite Hfuzz, reflect_down_up. unfold dot; simpl. lra.
  - apply (metal_fuzz_margin (H := sample.fixed)
             (metal.make sample.grey (1 / 2)) sample.rising
             sample.floor_hit sample.start length_squared_up Hrv Hpos).
    rewrite Hfuzz, reflect_up_down. unfold dot; simpl. lra.
Defined.

Lemma lambertian_pdf_bounds_witness :
  pdf (final (lambertian.scatter (H := sample.fixed)
                (lambertian.of_color sample.grey) sample.down
                sample.floor_hit) sample.start) = 1 / pi.
Proof.
  apply (lambertian_pdf_bounds (H := sample.fixed)
           (lambertian.of_color sample.grey) sample.down sample.floor_hit
           sample.start).
  - exact length_squared_up.
  - simpl. lra.
Defined.

Lemma lambertian_direction_length_witness :
  length_squared
    (direction
       (scattered (final (lambertian.scatter (H := sample.fixed)
                            (lambertian.of_color sample.grey) sample.down
                            sample.floor_hit) sample.start)))
  = length_squared (vec 0 0 1).
Proof.
  apply (lambertian_direction_length (H := sample.fixed)
           (lambertian.of_color sample.grey) sample.down sample.floor_hit
           sample.start).
  - exact length_squared_up.
  - simpl. unfold sample.axis_off; simpl.
    assert (Haxis : gtb (Rabs 0) 0.9 = false).
    { apply gtb_false. rewrite Rabs_R0. lra. }
    rewrite Haxis. unfold cross; simpl.
    intro Heq. injection Heq as _ Hy _. lra.
Defined.

Lemma diffuse_scatter_ignores_incoming_witness :
  lambertian.scatter (H := sample.fixed) (lambertian.of_color sample.grey)
    sample.down sample.floor_hit sample.start
  = lambertian.scatter (H := sample.fixed) (lambertian.of_color sample.grey)
      sample.east sample.floor_hit sample.start /\
  isotropic.scatter (H := sample.fixed) (isotropic.of_color sample.grey)
    sample.down sample.floor_hit sample.start
  = isotropic.scatter (H := sample.fixed) (isotropic.of_color sample.grey)
      sample.east sample.floor_hit sample.start.
Proof.
  apply (diffuse_scatter_ignores_incoming (H := sample.fixed)).
  reflexivity.
Defined.

Lemma isotropic_scatter_ignores_normal_witness :
  isotropic.scatter (H := sample.fixed) (isotropic.of_color sample.grey)
    sample.down sample.floor_hit sample.start
  = isotropic.scatter (H := sample.fixed) (isotropic.of_color sample.grey)
      sample.down sample.flat_hit sample.start.
Proof.
  apply (isotropic_scatter_ignores_normal (H := sample.fixed));
    reflexivity.
Defined.
